(** * Tectra: the clock abstraction of [src/common/time.hpp]

    A shallow embedding of [tectra::common::Clock] and of its two leaves,
    [RealClock] and [VirtualClock], together with the properties the
    specification states about them.

    Conventions of the embedding.
    - [std::int64_t] is the type [Int64.t]: an integer together with the
      evidence that it lies between [INT64_MIN] and [INT64_MAX].
    - C++ leaves signed overflow undefined.  Evaluation therefore yields an
      [outcome]: either a [Defined] value or [Undefined] behaviour.
    - [std::chrono::steady_clock] is not code of this repository; it is a
      value of type [steady_clock] that is threaded through the calls that
      read it. *)

From Stdlib Require Import ZArith Bool List Lia Sorted Eqdep_dec.
From Stdlib Require String.
Import ListNotations.
Local Open Scope Z_scope.

(** ** Outcomes of evaluation *)

Inductive outcome (A : Type) : Type :=
| Defined (a : A)
| Undefined.

Arguments Defined {A} a.
Arguments Undefined {A}.

Definition bind {A B : Type} (m : outcome A) (k : A -> outcome B) : outcome B :=
  match m with
  | Defined a => k a
  | Undefined => Undefined
  end.

Notation "x <- m ;; k" := (bind m (fun x => k))
  (at level 61, m at next level, right associativity).
Notation "' pat <- m ;; k" := (bind m (fun x => match x with pat => k end))
  (at level 61, pat pattern, m at next level, right associativity).

Definition is_defined {A : Type} (m : outcome A) : bool :=
  match m with
  | Defined _ => true
  | Undefined => false
  end.

(** ** Signed 64-bit integers *)

Module Int64.

Definition min_signed : Z := -9223372036854775808.
Definition max_signed : Z := 9223372036854775807.
Definition modulus : Z := 18446744073709551616.

Definition in_range (z : Z) : bool :=
  (min_signed <=? z) && (z <=? max_signed).

Record t : Type := mk { to_Z : Z; to_Z_range : in_range to_Z = true }.

(** The value a computation produces when its mathematical result [z] is
    representable; undefined behaviour otherwise. *)
Definition checked (z : Z) : outcome t :=
  match in_range z as b return in_range z = b -> outcome t with
  | true => fun H => Defined (mk z H)
  | false => fun _ => Undefined
  end eq_refl.

(** Built-in [+], [*] and [/] on [std::int64_t] operands. *)
Definition add (a b : t) : outcome t := checked (to_Z a + to_Z b).

Definition mul (a b : t) : outcome t := checked (to_Z a * to_Z b).

Definition div (a b : t) : outcome t :=
  if to_Z b =? 0 then Undefined else checked (Z.quot (to_Z a) (to_Z b)).

(** Built-in binary [-]. *)
Definition sub (a b : t) : outcome t := checked (to_Z a - to_Z b).

(** The two overflow policies the specification names: reduction modulo
    [2^64] into the signed range, and clamping at the bounds. *)
Definition wrap (z : Z) : Z := (z - min_signed) mod modulus + min_signed.

Definition saturate (z : Z) : Z := Z.max min_signed (Z.min max_signed z).

(** [wrap] lands in the 64-bit range, which is what makes [repr] a 64-bit
    integer. *)
Lemma in_range_iff (z : Z) :
  in_range z = true <-> min_signed <= z <= max_signed.
Proof.
  unfold in_range. rewrite andb_true_iff, !Z.leb_le. tauto.
Qed.

Lemma wrap_in_range (z : Z) : in_range (wrap z) = true.
Proof.
  apply in_range_iff. unfold wrap, min_signed, max_signed, modulus.
  pose proof (Z.mod_pos_bound (z - -9223372036854775808) 18446744073709551616).
  lia.
Qed.

(** Conversion from an integer literal (two's complement reduction). *)
Definition repr (z : Z) : t := mk (wrap z) (wrap_in_range z).

Definition zero : t := repr 0.
Definition one : t := repr 1.
Definition INT64_MIN : t := repr min_signed.
Definition INT64_MAX : t := repr max_signed.

End Int64.

Coercion Int64.to_Z : Int64.t >-> Z.

(** ** The part of [<chrono>] that [RealClock::now] uses *)

Module chrono.

(** A [std::chrono::duration] with a 64-bit signed representation.  Its
    period, a compile-time [std::ratio] of seconds, is carried along as
    [num / den]. *)
Record duration : Type := mk_duration { count : Int64.t; num : Z; den : Z }.

Record time_point : Type := mk_time_point { time_since_epoch : duration }.

(** The platform's [steady_clock]: its tick period [period_num / period_den]
    (in seconds), the tick count [tick_at k] that the call number [k] of
    [steady_clock::now()] returns, and the number of [calls] made so far. *)
Record steady_clock : Type := mk_steady_clock {
  period_num : Z;
  period_den : Z;
  tick_at : nat -> Int64.t;
  calls : nat
}.

Definition steady_clock_now (w : steady_clock) : time_point * steady_clock :=
  ({| time_since_epoch :=
        {| count := tick_at w (calls w); num := period_num w; den := period_den w |} |},
   {| period_num := period_num w; period_den := period_den w;
      tick_at := tick_at w; calls := S (calls w) |}).

Definition nano_den : Z := 1000000000.

(** [std::ratio_divide<Period, std::nano>], in lowest terms. *)
Definition CF_num (n d : Z) : Z := (n * nano_den) / Z.gcd (n * nano_den) d.

Definition CF_den (n d : Z) : Z := d / Z.gcd (n * nano_den) d.

(** [duration_cast<nanoseconds>], by the four cases of [time.duration.cast],
    computed in [intmax_t]. *)
Definition duration_cast_nanoseconds (d : duration) : outcome duration :=
  let cf_num := CF_num (num d) (den d) in
  let cf_den := CF_den (num d) (den d) in
  c <- (if (cf_num =? 1) && (cf_den =? 1) then
          Defined (count d)
        else if cf_den =? 1 then
          Int64.mul (count d) (Int64.repr cf_num)
        else if cf_num =? 1 then
          Int64.div (count d) (Int64.repr cf_den)
        else
          p <- Int64.mul (count d) (Int64.repr cf_num) ;;
          Int64.div p (Int64.repr cf_den)) ;;
  Defined {| count := c; num := 1; den := nano_den |}.

(** What the platform promises of its steady clock: a positive period whose
    quotient by [std::nano] is a well-formed [std::ratio]; readings that
    never decrease ([steady_clock::is_steady]); and a time since the epoch
    that nanoseconds can count in 64 bits. *)
Record steady (w : steady_clock) : Prop := mk_steady {
  period_num_pos : 0 < period_num w;
  period_den_pos : 0 < period_den w;
  ratio_well_formed :
    Int64.in_range (period_num w * nano_den) = true /\
    Int64.in_range (period_den w) = true;
  is_steady : forall i j : nat, (i <= j)%nat -> tick_at w i <= tick_at w j;
  nanoseconds_fit : forall k : nat,
    Int64.in_range (tick_at w k * CF_num (period_num w) (period_den w)) = true
}.

(** The nanosecond count that [c] ticks of period [n / d] amount to,
    rounded towards zero. *)
Definition to_nanoseconds (n d : Z) (c : Z) : Z :=
  Z.quot (c * CF_num n d) (CF_den n d).

(** A steady clock that ticks every 100 ns, read 3 ticks later at each call
    until it stops at 10^15 ticks. *)
Definition example_clock : steady_clock := {|
  period_num := 1;
  period_den := 10000000;
  tick_at := fun k => Int64.repr (Z.min (3 * Z.of_nat k) 1000000000000000);
  calls := 0
|}.

End chrono.

(** ** [namespace tectra::common] *)

Definition Timestamp : Type := Int64.t.

(** [class Clock]: the two pure virtual members.  [now] may read the
    platform's steady clock, which is passed in and handed back. *)
Class Clock (C : Type) : Type := {
  now : C -> chrono.steady_clock -> outcome (Timestamp * chrono.steady_clock);
  is_virtual : C -> bool
}.

Module RealClock.

(** [RealClock] has no data member. *)
Record t : Type := mk { }.

Definition now (self : t) (w : chrono.steady_clock)
  : outcome (Timestamp * chrono.steady_clock) :=
  let '(now_, w') := chrono.steady_clock_now w in
  let duration := chrono.time_since_epoch now_ in
  ns <- chrono.duration_cast_nanoseconds duration ;;
  Defined (chrono.count ns, w').

Definition is_virtual (self : t) : bool := false.

End RealClock.

Module VirtualClock.

Record t : Type := mk { current_time_ : Timestamp }.

(** [explicit VirtualClock(Timestamp start_time = 0)] *)
Definition ctor (start_time : Timestamp) : t := {| current_time_ := start_time |}.

Definition ctor_default : t := ctor Int64.zero.

Definition now (self : t) : Timestamp := current_time_ self.

Definition is_virtual (self : t) : bool := true.

(** [current_time_ += delta_ns] *)
Definition advance (self : t) (delta_ns : Int64.t) : outcome t :=
  sum <- Int64.add (current_time_ self) delta_ns ;;
  Defined {| current_time_ := sum |}.

(** [current_time_ = absolute_time] *)
Definition set_time (self : t) (absolute_time : Timestamp) : t :=
  {| current_time_ := absolute_time |}.

End VirtualClock.

#[export] Instance RealClock_Clock : Clock RealClock.t := {|
  now := RealClock.now;
  is_virtual := RealClock.is_virtual
|}.

#[export] Instance VirtualClock_Clock : Clock VirtualClock.t := {|
  now := fun self w => Defined (VirtualClock.now self, w);
  is_virtual := VirtualClock.is_virtual
|}.

(** ** Clients *)

(** A consumer holding a [Clock&] can ask two things. *)
Inductive query : Type :=
| Now
| IsVirtual.

Inductive answer : Type :=
| Time (t : Timestamp)
| Flag (b : bool).

Definition ask {C : Type} `{Clock C} (self : C) (q : query) (w : chrono.steady_clock)
  : outcome (answer * chrono.steady_clock) :=
  match q with
  | Now => '(t, w') <- now self w ;; Defined (Time t, w')
  | IsVirtual => Defined (Flag (is_virtual self), w)
  end.

(** A single thread asking one question after the other. *)
Fixpoint ask_all {C : Type} `{Clock C} (self : C) (qs : list query)
  (w : chrono.steady_clock) : outcome (list answer * chrono.steady_clock) :=
  match qs with
  | [] => Defined ([], w)
  | q :: qs' =>
      '(a, w') <- ask self q w ;;
      '(rest, w'') <- ask_all self qs' w' ;;
      Defined (a :: rest, w'')
  end.

(** The timestamps among the answers, in the order they were read. *)
Fixpoint times (l : list answer) : list Z :=
  match l with
  | [] => []
  | Time t :: l' => Int64.to_Z t :: times l'
  | Flag _ :: l' => times l'
  end.

Fixpoint flags (l : list answer) : list bool :=
  match l with
  | [] => []
  | Time _ :: l' => flags l'
  | Flag b :: l' => b :: flags l'
  end.

(** The owner of a [VirtualClock] can, besides, move its time. *)
Inductive call : Type :=
| Read (q : query)
| Advance (delta_ns : Int64.t)
| SetTime (absolute_time : Timestamp).

Definition invoke (self : VirtualClock.t) (c : call)
  : outcome (VirtualClock.t * option answer) :=
  match c with
  | Read Now => Defined (self, Some (Time (VirtualClock.now self)))
  | Read IsVirtual => Defined (self, Some (Flag (VirtualClock.is_virtual self)))
  | Advance delta_ns =>
      self' <- VirtualClock.advance self delta_ns ;; Defined (self', None)
  | SetTime absolute_time =>
      Defined (VirtualClock.set_time self absolute_time, None)
  end.

Fixpoint run (self : VirtualClock.t) (cs : list call)
  : outcome (VirtualClock.t * list answer) :=
  match cs with
  | [] => Defined (self, [])
  | c :: cs' =>
      '(self', a) <- invoke self c ;;
      '(self'', rest) <- run self' cs' ;;
      Defined (self'', match a with Some x => x :: rest | None => rest end)
  end.

(** What a run lets its client see: the timestamps and the flags it was
    answered, if it has a defined result at all. *)
Definition observed (r : outcome (VirtualClock.t * list answer))
  : option (list Z * list bool) :=
  match r with
  | Defined (_, answers) => Some (times answers, flags answers)
  | Undefined => None
  end.

(** What a reading call answers on a clock whose state is [self]. *)
Definition reply (self : VirtualClock.t) (q : query) : answer :=
  match q with
  | Now => Time (VirtualClock.current_time_ self)
  | IsVirtual => Flag true
  end.

(** [advance(d1); advance(d2)] *)
Definition advance_twice (vc : VirtualClock.t) (d1 d2 : Int64.t) : outcome VirtualClock.t :=
  vc1 <- VirtualClock.advance vc d1 ;; VirtualClock.advance vc1 d2.

(** [written vc v]: the state [vc] is what a write of the value [v] left
    behind, the write being the constructor, [set_time] or [advance]. *)
Inductive written : VirtualClock.t -> Timestamp -> Prop :=
| written_ctor (a : Timestamp) :
    written (VirtualClock.ctor a) a
| written_set_time (vc : VirtualClock.t) (a : Timestamp) :
    written (VirtualClock.set_time vc a) a
| written_advance (vc vc' : VirtualClock.t) (d sum : Int64.t) :
    Int64.add (VirtualClock.now vc) d = Defined sum ->
    VirtualClock.advance vc d = Defined vc' ->
    written vc' sum.

(** Whether a call is one that [invoke] can evaluate: every call but an
    [advance] whose sum leaves the 64-bit range. *)
Definition representable (self : VirtualClock.t) (c : call) : bool :=
  match c with
  | Advance delta_ns => Int64.in_range (VirtualClock.now self + delta_ns)
  | _ => true
  end.

(** ** Runs in unbounded integers *)

(** The current time after a call, were [Timestamp] the mathematical
    integers. *)
Definition time_after_call (t : Z) (c : call) : Z :=
  match c with
  | Read _ => t
  | Advance delta_ns => t + delta_ns
  | SetTime absolute_time => absolute_time
  end.

Definition time_after (t : Z) (cs : list call) : Z :=
  fold_left time_after_call cs t.

(** The values the [now()] calls of a run return, in the same reading. *)
Fixpoint times_read (t : Z) (cs : list call) : list Z :=
  match cs with
  | [] => []
  | Read Now :: cs' => t :: times_read t cs'
  | c :: cs' => times_read (time_after_call t c) cs'
  end.

(** Whether the current time stays within 64 bits over the whole run. *)
Fixpoint representable_throughout (t : Z) (cs : list call) : bool :=
  match cs with
  | [] => true
  | c :: cs' =>
      Int64.in_range (time_after_call t c)
      && representable_throughout (time_after_call t c) cs'
  end.

(** How many of the questions are [now()]. *)
Fixpoint nows (qs : list query) : nat :=
  match qs with
  | [] => 0
  | Now :: qs' => S (nows qs')
  | IsVirtual :: qs' => nows qs'
  end.

(** ** [main.cpp] *)

Module main_cpp.

Import String.StringSyntax.
Local Open Scope string_scope.

(** What is inserted into [std::cout]: a string literal, kept as the source
    spells it, or a 64-bit integer. *)
Inductive item : Type :=
| Text (s : String.string)
| Number (n : Int64.t).

(** [std::this_thread::sleep_for]: the thread is suspended; the time that
    passes shows in what the platform's clock reads next, not in its
    state. *)
Definition sleep_for (milliseconds : Z) (w : chrono.steady_clock)
  : chrono.steady_clock := w.

(** [int main()]: the exit status, what was written to [std::cout], and the
    platform's clock afterwards. *)
Definition main (w : chrono.steady_clock)
  : outcome (Z * list item * chrono.steady_clock) :=
  let cout := [Text "Tectra v0.1.0 - Clock Abstraction Test\n\n"] in
  let cout := cout ++ [Text "=== RealClock Test ===\n"] in
  let real_clock := RealClock.mk in
  '(t1, w) <- now real_clock w ;;
  let w := sleep_for 100 w in
  '(t2, w) <- now real_clock w ;;
  delta_ns <- Int64.sub t2 t1 ;;
  delta_ms <- Int64.div delta_ns (Int64.repr 1000000) ;;
  let cout := cout ++ [Text "Time elapsed: "; Number delta_ms; Text " ms\n"] in
  let cout := cout ++ [Text "Is virtual: ";
                       Text (if is_virtual real_clock then "yes" else "no");
                       Text "\n\n"] in
  let cout := cout ++ [Text "=== VirtualClock Test ===\n"] in
  let virtual_clock := VirtualClock.ctor (Int64.repr 0) in
  let cout := cout ++ [Text "Initial time: ";
                       Number (VirtualClock.now virtual_clock); Text " ns\n"] in
  virtual_clock <- VirtualClock.advance virtual_clock (Int64.repr 1000000000) ;;
  let cout := cout ++ [Text "After advance(1s): ";
                       Number (VirtualClock.now virtual_clock); Text " ns\n"] in
  let virtual_clock := VirtualClock.set_time virtual_clock (Int64.repr 5000000000) in
  let cout := cout ++ [Text "After set_time(5s): ";
                       Number (VirtualClock.now virtual_clock); Text " ns\n"] in
  let cout := cout ++ [Text "Is virtual: ";
                       Text (if is_virtual virtual_clock then "yes" else "no");
                       Text "\n"] in
  Defined (0, cout, w).

(** What [main] writes, given the elapsed milliseconds it computed. *)
Definition transcript (delta_ms : Int64.t) : list item :=
  [Text "Tectra v0.1.0 - Clock Abstraction Test\n\n";
   Text "=== RealClock Test ===\n";
   Text "Time elapsed: "; Number delta_ms; Text " ms\n";
   Text "Is virtual: "; Text "no"; Text "\n\n";
   Text "=== VirtualClock Test ===\n";
   Text "Initial time: "; Number (Int64.repr 0); Text " ns\n";
   Text "After advance(1s): "; Number (Int64.repr 1000000000); Text " ns\n";
   Text "After set_time(5s): "; Number (Int64.repr 5000000000); Text " ns\n";
   Text "Is virtual: "; Text "yes"; Text "\n"].

End main_cpp.

(** ** More platforms *)

(** A steady clock that counts nanoseconds, as [libstdc++] and [libc++]
    have it; it starts below zero. *)
Definition nanosecond_clock : chrono.steady_clock := {|
  chrono.period_num := 1;
  chrono.period_den := 1000000000;
  chrono.tick_at := fun k => Int64.repr (Z.min (250000000 * Z.of_nat k - 7) 4000000000000000000);
  chrono.calls := 0
|}.

(** A steady clock of three ticks to the nanosecond. *)
Definition fast_clock : chrono.steady_clock := {|
  chrono.period_num := 1;
  chrono.period_den := 3000000000;
  chrono.tick_at := fun k => Int64.repr (Z.min (1000 * Z.of_nat k + 7) 1000000000000000);
  chrono.calls := 0
|}.

(** A steady clock that counts nanoseconds from an epoch far in the future:
    its first reading is far below zero, the later ones far above. *)
Definition wide_clock : chrono.steady_clock := {|
  chrono.period_num := 1;
  chrono.period_den := 1000000000;
  chrono.tick_at := fun k =>
    match k with
    | O => Int64.repr (-9000000000000000000)
    | S _ => Int64.repr 9000000000000000000
    end;
  chrono.calls := 0
|}.

(** * Properties *)

(** ** 64-bit integers *)

Module Int64Facts.

Import Int64.

Lemma in_range_false_iff (z : Z) :
  in_range z = false <-> z < min_signed \/ max_signed < z.
Proof.
  unfold in_range. rewrite andb_false_iff, !Z.leb_gt. tauto.
Qed.

Lemma range (a : t) : min_signed <= to_Z a <= max_signed.
Proof. apply in_range_iff, to_Z_range. Qed.

(** Two 64-bit integers with the same value are the same. *)
Lemma to_Z_inj (a b : t) : to_Z a = to_Z b -> a = b.
Proof.
  destruct a as [x Hx], b as [y Hy]; simpl; intros ->.
  f_equal. apply UIP_dec, bool_dec.
Qed.

Lemma wrap_small (z : Z) : in_range z = true -> wrap z = z.
Proof.
  intros H%in_range_iff. unfold wrap, min_signed, max_signed, modulus in *.
  rewrite Z.mod_small; lia.
Qed.

Lemma saturate_small (z : Z) : in_range z = true -> saturate z = z.
Proof.
  intros H%in_range_iff. unfold saturate, min_signed, max_signed in *. lia.
Qed.

Lemma checked_in (z : Z) (H : in_range z = true) : checked z = Defined (mk z H).
Proof.
  unfold checked.
  generalize (eq_refl (in_range z)).
  generalize (in_range z) at 2 3.
  intros b e. destruct b.
  - f_equal. apply to_Z_inj. reflexivity.
  - congruence.
Qed.

Lemma checked_out (z : Z) : in_range z = false -> checked z = Undefined.
Proof.
  intros H. unfold checked.
  generalize (eq_refl (in_range z)).
  generalize (in_range z) at 2 3.
  intros b e. destruct b; [congruence | reflexivity].
Qed.

Lemma checked_defined (z : Z) (r : t) :
  checked z = Defined r <-> in_range z = true /\ to_Z r = z.
Proof.
  split.
  - intros H. destruct (in_range z) eqn:E.
    + rewrite (checked_in z E) in H. inversion H; subst. auto.
    + rewrite (checked_out z E) in H. discriminate.
  - intros [E <-]. rewrite (checked_in _ E). f_equal. apply to_Z_inj. reflexivity.
Qed.

Lemma checked_undefined (z : Z) :
  checked z = Undefined <-> in_range z = false.
Proof.
  split.
  - intros H. destruct (in_range z) eqn:E; [|reflexivity].
    rewrite (checked_in z E) in H. discriminate.
  - apply checked_out.
Qed.

Lemma checked_repr (z : Z) : in_range z = true -> checked z = Defined (repr z).
Proof.
  intros H. apply checked_defined. split; [assumption|].
  simpl. apply wrap_small, H.
Qed.

End Int64Facts.

(** ** The outcome monad *)

Lemma bind_defined {A B : Type} (m : outcome A) (k : A -> outcome B) (b : B) :
  bind m k = Defined b <-> exists a, m = Defined a /\ k a = Defined b.
Proof.
  destruct m as [a|]; simpl; split.
  - intros H. exists a. auto.
  - intros (a' & [= <-] & H). exact H.
  - discriminate.
  - intros (a' & [=] & _).
Qed.

(** ** [VirtualClock::advance] and 64-bit addition *)

Lemma add_defined (a b s : Int64.t) :
  Int64.add a b = Defined s <->
  Int64.in_range (a + b) = true /\ Int64.to_Z s = a + b.
Proof. apply Int64Facts.checked_defined. Qed.

Lemma add_undefined (a b : Int64.t) :
  Int64.add a b = Undefined <-> Int64.in_range (a + b) = false.
Proof. apply Int64Facts.checked_undefined. Qed.

Lemma advance_defined (self self' : VirtualClock.t) (d : Int64.t) :
  VirtualClock.advance self d = Defined self' <->
  Int64.in_range (VirtualClock.now self + d) = true /\
  Int64.to_Z (VirtualClock.now self') = VirtualClock.now self + d.
Proof.
  unfold VirtualClock.advance, VirtualClock.now. rewrite bind_defined. split.
  - intros (s & Hs%add_defined & [= <-]). exact Hs.
  - intros H. destruct self' as [s]. exists s. split; [apply add_defined, H | reflexivity].
Qed.

Lemma advance_undefined (self : VirtualClock.t) (d : Int64.t) :
  VirtualClock.advance self d = Undefined <->
  Int64.in_range (VirtualClock.now self + d) = false.
Proof.
  unfold VirtualClock.advance, VirtualClock.now.
  destruct (Int64.add (VirtualClock.current_time_ self) d) as [s|] eqn:E; simpl.
  - apply add_defined in E as [E _]. split; congruence.
  - apply add_undefined in E. tauto.
Qed.

Lemma advance_in_range (self : VirtualClock.t) (d : Int64.t) :
  Int64.in_range (VirtualClock.now self + d) = true ->
  VirtualClock.advance self d =
  Defined (VirtualClock.ctor (Int64.repr (VirtualClock.now self + d))).
Proof.
  intros H. apply advance_defined. split; [exact H|].
  simpl. apply Int64Facts.wrap_small, H.
Qed.

Lemma is_defined_advance (self : VirtualClock.t) (d : Int64.t) :
  is_defined (VirtualClock.advance self d) =
  Int64.in_range (VirtualClock.now self + d).
Proof.
  destruct (Int64.in_range (VirtualClock.now self + d)) eqn:E.
  - rewrite (advance_in_range _ _ E). reflexivity.
  - apply advance_undefined in E. rewrite E. reflexivity.
Qed.

(** [advance] as a checked sum of the mathematical integers. *)
Lemma advance_checked (vc : VirtualClock.t) (d : Int64.t) :
  VirtualClock.advance vc d =
  (sum <- Int64.checked (VirtualClock.now vc + d) ;; Defined (VirtualClock.ctor sum)).
Proof. reflexivity. Qed.

Lemma advance_twice_checked (vc : VirtualClock.t) (d1 d2 : Int64.t) :
  Int64.in_range (VirtualClock.now vc + d1) = true ->
  advance_twice vc d1 d2 =
  (sum <- Int64.checked (VirtualClock.now vc + d1 + d2) ;; Defined (VirtualClock.ctor sum)).
Proof.
  intros H. unfold advance_twice.
  rewrite (advance_in_range vc d1 H). cbn [bind].
  rewrite advance_checked. cbn [VirtualClock.now VirtualClock.ctor VirtualClock.current_time_].
  cbn [Int64.repr Int64.to_Z]. rewrite (Int64Facts.wrap_small _ H). reflexivity.
Qed.

Lemma clock_eq (x y : VirtualClock.t) :
  Int64.to_Z (VirtualClock.now x) = Int64.to_Z (VirtualClock.now y) -> x = y.
Proof.
  destruct x as [a], y as [b]; simpl. intros H%Int64Facts.to_Z_inj. congruence.
Qed.

(** Unfolds the range tests in sight and recalls the bounds of every 64-bit
    value mentioned, for [lia]. *)
Ltac note_range x :=
  lazymatch goal with
  | _ : Int64.min_signed <= Int64.to_Z x <= Int64.max_signed |- _ => fail
  | _ => pose proof (Int64Facts.range x)
  end.

Ltac ranges :=
  unfold VirtualClock.now in *;
  repeat match goal with
  | H : Int64.in_range _ = true |- _ => apply Int64.in_range_iff in H
  | H : Int64.in_range _ = false |- _ => apply Int64Facts.in_range_false_iff in H
  | |- Int64.in_range _ = true => apply Int64.in_range_iff
  | |- Int64.in_range _ = false => apply Int64Facts.in_range_false_iff
  end;
  repeat match goal with
  | |- context [Int64.to_Z ?x] => note_range x
  | _ : context [Int64.to_Z ?x] |- _ => note_range x
  end;
  unfold Int64.min_signed, Int64.max_signed, Int64.modulus in *.

(** ** Runs of calls on a [VirtualClock] *)

Lemma run_reads (vc : VirtualClock.t) (qs : list query) :
  run vc (map Read qs) = Defined (vc, map (reply vc) qs).
Proof.
  induction qs as [|q qs IH]; [reflexivity|].
  cbn [map run]. destruct q; cbn [invoke bind]; rewrite IH; reflexivity.
Qed.

Lemma run_app (cs1 cs2 : list call) :
  forall vc : VirtualClock.t,
    run vc (cs1 ++ cs2) =
    ('(vc1, a1) <- run vc cs1 ;;
     '(vc2, a2) <- run vc1 cs2 ;;
     Defined (vc2, a1 ++ a2)).
Proof.
  induction cs1 as [|c cs1 IH]; intros vc; cbn [app run bind].
  - destruct (run vc cs2) as [[vc2 a2]|]; reflexivity.
  - destruct (invoke vc c) as [[vc1 a]|]; cbn [bind]; [|reflexivity].
    rewrite IH.
    destruct (run vc1 cs1) as [[vc2 r]|]; cbn [bind]; [|reflexivity].
    destruct (run vc2 cs2) as [[vc3 r2]|]; cbn [bind]; [|reflexivity].
    destruct a; reflexivity.
Qed.

Lemma written_now (vc : VirtualClock.t) (v : Timestamp) :
  written vc v -> VirtualClock.now vc = v.
Proof.
  intros [a | vc0 a | vc0 vc' d sum Hsum Hadv]; try reflexivity.
  unfold VirtualClock.advance, VirtualClock.now in *.
  rewrite Hsum in Hadv. simpl in Hadv. now inversion Hadv.
Qed.

Lemma run_flags (cs : list call) :
  forall (vc vc' : VirtualClock.t) (answers : list answer),
    run vc cs = Defined (vc', answers) ->
    Forall (fun b => b = true) (flags answers).
Proof.
  induction cs as [|c cs IH]; intros vc vc' answers E.
  - inversion E. constructor.
  - cbn [run] in E.
    apply bind_defined in E as ([vc1 a] & Ea & E).
    apply bind_defined in E as ([vc2 rest] & Er & [= <- <-]).
    specialize (IH _ _ _ Er).
    destruct c as [[|] | d | t]; cbn [invoke] in Ea.
    + inversion Ea; subst. exact IH.
    + inversion Ea; subst. simpl. constructor; [reflexivity | exact IH].
    + apply bind_defined in Ea as (vc3 & _ & [= <- <-]). exact IH.
    + inversion Ea; subst. exact IH.
Qed.

(** ** Questions through the [Clock] interface *)

(** Whatever the variant, every answer to [is_virtual()] that a series of
    questions collects is the variant's tag. *)
Lemma ask_all_flags {C : Type} `{Clock C} (self : C) (qs : list query) :
  forall (w w' : chrono.steady_clock) (answers : list answer),
    ask_all self qs w = Defined (answers, w') ->
    Forall (fun b => b = is_virtual self) (flags answers).
Proof.
  induction qs as [|q qs IH]; intros w w' answers E.
  - inversion E. constructor.
  - cbn [ask_all] in E.
    apply bind_defined in E as ([a w1] & Ea & E).
    apply bind_defined in E as ([rest w2] & Er & [= <- <-]).
    specialize (IH _ _ _ Er).
    destruct q; cbn [ask] in Ea.
    + apply bind_defined in Ea as ([t w3] & _ & [= <- <-]). exact IH.
    + inversion Ea; subst. simpl. constructor; [reflexivity | exact IH].
Qed.

(** ** [duration_cast] to nanoseconds *)

Lemma ratio_reduced (x d : Z) :
  0 < x -> 0 < d ->
  0 < x / Z.gcd x d <= x /\ 0 < d / Z.gcd x d <= d.
Proof.
  intros Hx Hd.
  pose proof (Z.gcd_nonneg x d) as Hg.
  assert (Z.gcd x d <> 0) as Hg0 by (intros [E _]%Z.gcd_eq_0; lia).
  pose proof (Znumtheory.Zdivide_Zdiv_eq (Z.gcd x d) x ltac:(lia) (Z.gcd_divide_l x d)).
  pose proof (Znumtheory.Zdivide_Zdiv_eq (Z.gcd x d) d ltac:(lia) (Z.gcd_divide_r x d)).
  nia.
Qed.

Lemma quot_bounds (x D : Z) : 0 < D -> Z.min 0 x <= Z.quot x D <= Z.max 0 x.
Proof.
  intros HD. destruct (Z.le_ge_cases 0 x) as [Hx|Hx].
  - pose proof (Z.quot_pos x D Hx HD).
    pose proof (Z.mul_quot_le x D Hx ltac:(lia)). nia.
  - pose proof (Z.mul_quot_ge x D Hx ltac:(lia)). nia.
Qed.

Lemma CF_bounds (n d : Z) :
  0 < n -> 0 < d ->
  Int64.in_range (n * chrono.nano_den) = true -> Int64.in_range d = true ->
  0 < chrono.CF_num n d /\ 0 < chrono.CF_den n d
  /\ Int64.to_Z (Int64.repr (chrono.CF_num n d)) = chrono.CF_num n d
  /\ Int64.to_Z (Int64.repr (chrono.CF_den n d)) = chrono.CF_den n d.
Proof.
  intros Hn Hd Hx Hdr. unfold chrono.CF_num, chrono.CF_den.
  assert (0 < n * chrono.nano_den) as Hx0 by (unfold chrono.nano_den; lia).
  destruct (ratio_reduced _ _ Hx0 Hd) as [HN HD].
  repeat split; try lia; simpl; apply Int64Facts.wrap_small; ranges; lia.
Qed.

Lemma to_nanoseconds_mono (n d c1 c2 : Z) :
  0 < chrono.CF_num n d -> 0 < chrono.CF_den n d ->
  c1 <= c2 -> chrono.to_nanoseconds n d c1 <= chrono.to_nanoseconds n d c2.
Proof.
  intros HN HD Hc. unfold chrono.to_nanoseconds.
  apply Z.quot_le_mono; [exact HD|]. apply Z.mul_le_mono_nonneg_r; lia.
Qed.

Lemma duration_cast_nanoseconds_defined (c : Int64.t) (n d : Z) :
  0 < n -> 0 < d ->
  Int64.in_range (n * chrono.nano_den) = true -> Int64.in_range d = true ->
  Int64.in_range (c * chrono.CF_num n d) = true ->
  exists ns : chrono.duration,
    chrono.duration_cast_nanoseconds {| chrono.count := c; chrono.num := n; chrono.den := d |}
    = Defined ns
    /\ Int64.to_Z (chrono.count ns) = chrono.to_nanoseconds n d c.
Proof.
  intros Hn Hd Hx Hdr Hfit.
  destruct (CF_bounds n d Hn Hd Hx Hdr) as (HN & HD & EN & ED).
  unfold chrono.duration_cast_nanoseconds, chrono.to_nanoseconds.
  cbn [chrono.count chrono.num chrono.den].
  set (N := chrono.CF_num n d) in *. set (D := chrono.CF_den n d) in *.
  pose proof (quot_bounds (c * N) D HD) as Hq.
  assert (Int64.in_range (Z.quot (c * N) D) = true) as Hqr by (ranges; lia).
  assert ((D =? 0) = false) as HD0 by (apply Z.eqb_neq; lia).
  destruct (N =? 1) eqn:EN1; [apply Z.eqb_eq in EN1|];
    (destruct (D =? 1) eqn:ED1; [apply Z.eqb_eq in ED1|]); cbn [andb].
  - eexists. split; [reflexivity|]. cbn [bind chrono.count].
    rewrite EN1, ED1, Z.mul_1_r, Z.quot_1_r. reflexivity.
  - unfold Int64.div. rewrite ED, HD0.
    rewrite EN1, Z.mul_1_r in Hqr. rewrite (Int64Facts.checked_repr _ Hqr).
    eexists. split; [reflexivity|]. cbn [bind chrono.count Int64.repr Int64.to_Z].
    rewrite (Int64Facts.wrap_small _ Hqr), EN1, Z.mul_1_r. reflexivity.
  - unfold Int64.mul. rewrite EN, (Int64Facts.checked_repr _ Hfit).
    eexists. split; [reflexivity|]. cbn [bind chrono.count Int64.repr Int64.to_Z].
    rewrite (Int64Facts.wrap_small _ Hfit), ED1, Z.quot_1_r. reflexivity.
  - unfold Int64.mul. rewrite EN, (Int64Facts.checked_repr _ Hfit). cbn [bind].
    unfold Int64.div. rewrite ED, HD0. cbn [Int64.repr Int64.to_Z].
    rewrite (Int64Facts.wrap_small _ Hfit), (Int64Facts.checked_repr _ Hqr).
    eexists. split; [reflexivity|]. cbn [bind chrono.count Int64.repr Int64.to_Z].
    apply Int64Facts.wrap_small, Hqr.
Qed.

(** ** Reading a [RealClock] *)

(** One read: the reading of the platform's clock, in nanoseconds; the
    platform's clock has been called once more. *)
Lemma real_now_defined (rc : RealClock.t) (w : chrono.steady_clock) :
  chrono.steady w ->
  exists t : Timestamp,
    RealClock.now rc w = Defined (t, snd (chrono.steady_clock_now w))
    /\ Int64.to_Z t
       = chrono.to_nanoseconds (chrono.period_num w) (chrono.period_den w)
           (chrono.tick_at w (chrono.calls w)).
Proof.
  intros [Hn Hd [Hx Hdr] _ Hfit].
  destruct (duration_cast_nanoseconds_defined
              (chrono.tick_at w (chrono.calls w)) _ _ Hn Hd Hx Hdr (Hfit _))
    as (ns & E & Hns).
  exists (chrono.count ns). split; [|exact Hns].
  unfold RealClock.now, chrono.steady_clock_now.
  cbn [chrono.time_since_epoch]. rewrite E. reflexivity.
Qed.

Lemma steady_after_now (w : chrono.steady_clock) :
  chrono.steady w -> chrono.steady (snd (chrono.steady_clock_now w)).
Proof. intros [Hn Hd Hr Hs Hfit]. constructor; assumption. Qed.

(** A series of questions to a [RealClock] is answered in full; the
    timestamps among the answers are sorted and none is earlier than the
    reading the platform's clock is about to give. *)
Lemma ask_all_real (rc : RealClock.t) (qs : list query) :
  forall w : chrono.steady_clock,
    chrono.steady w ->
    exists (answers : list answer) (w' : chrono.steady_clock),
      ask_all rc qs w = Defined (answers, w')
      /\ length answers = length qs
      /\ Forall (fun t =>
                   chrono.to_nanoseconds (chrono.period_num w) (chrono.period_den w)
                     (chrono.tick_at w (chrono.calls w)) <= t)
                (times answers)
      /\ Sorted Z.le (times answers).
Proof.
  induction qs as [|q qs IH]; intros w Hw.
  - exists [], w. repeat split; constructor.
  - destruct q.
    + destruct (real_now_defined rc w Hw) as (t & Et & Ht).
      destruct (IH _ (steady_after_now w Hw)) as (rest & w' & Er & Hlen & Hlow & Hsorted).
      exists (Time t :: rest), w'.
      assert (Forall (fun x => t <= x) (times rest)) as Hhd.
      { eapply Forall_impl; [|exact Hlow]. cbn beta. intros x Hx.
        rewrite Ht. etransitivity; [|exact Hx]. cbn [chrono.steady_clock_now snd
          chrono.period_num chrono.period_den chrono.tick_at chrono.calls].
        destruct Hw as [Hn Hd [Hx' Hdr] Hs _].
        destruct (CF_bounds _ _ Hn Hd Hx' Hdr) as (HN & HD & _).
        apply to_nanoseconds_mono; [exact HN | exact HD | apply Hs; lia]. }
      split; [|split; [|split]].
      * cbn [ask_all ask]. change (now rc w) with (RealClock.now rc w).
        rewrite Et. cbn [bind]. rewrite Er. reflexivity.
      * simpl. congruence.
      * cbn [times]. constructor; [lia|].
        eapply Forall_impl; [|exact Hhd]. cbn beta. intros x Hx. lia.
      * cbn [times]. constructor; [exact Hsorted|].
        destruct (times rest); constructor. now inversion Hhd.
    + destruct (IH _ Hw) as (rest & w' & Er & Hlen & Hlow & Hsorted).
      exists (Flag (is_virtual rc) :: rest), w'.
      split; [|split; [|split]].
      * cbn [ask_all ask bind]. rewrite Er. reflexivity.
      * simpl. congruence.
      * exact Hlow.
      * exact Hsorted.
Qed.

Lemma Sorted_nth_succ (l : list Z) :
  Sorted Z.le l ->
  forall i : nat, (S i < length l)%nat -> nth i l 0 <= nth (S i) l 0.
Proof.
  induction 1 as [|x l Hs IH Hhd]; intros i Hi; [simpl in Hi; lia|].
  destruct i as [|i].
  - destruct Hhd; simpl in *; [lia | assumption].
  - apply IH. simpl in Hi. lia.
Qed.

Lemma example_clock_steady : chrono.steady chrono.example_clock.
Proof.
  assert (forall k : nat,
            Int64.to_Z (chrono.tick_at chrono.example_clock k)
            = Z.min (3 * Z.of_nat k) 1000000000000000) as Htick.
  { intros k. cbn [chrono.tick_at chrono.example_clock Int64.repr Int64.to_Z].
    apply Int64Facts.wrap_small. ranges. lia. }
  constructor.
  - reflexivity.
  - reflexivity.
  - split; reflexivity.
  - intros i j Hij. rewrite !Htick. lia.
  - intros k. rewrite Htick.
    change (chrono.CF_num (chrono.period_num chrono.example_clock)
              (chrono.period_den chrono.example_clock))
      with (Z.div (1 * 1000000000) (Z.gcd (1 * 1000000000) 10000000)).
    replace (Z.div (1 * 1000000000) (Z.gcd (1 * 1000000000) 10000000)) with 100
      by (vm_compute; reflexivity).
    ranges. lia.
Qed.

(** * The claims of the specification *)

(** ** C1: [set_time] followed by [advance] *)

(** From any state, [set_time(INT64_MAX); advance(1)] overflows the
    addition: the calls have no defined result, so there is no next [now()]
    and no current time equal to [a + d]. *)
Lemma set_time_then_advance_overflow :
  run VirtualClock.ctor_default
      [SetTime Int64.INT64_MAX; Advance Int64.one; Read Now] = Undefined
  /\ ~ exists vc',
        VirtualClock.advance
          (VirtualClock.set_time VirtualClock.ctor_default Int64.INT64_MAX) Int64.one
        = Defined vc'
        /\ Int64.to_Z (VirtualClock.now vc') = Int64.INT64_MAX + Int64.one.
Proof.
  assert (VirtualClock.advance
            (VirtualClock.set_time VirtualClock.ctor_default Int64.INT64_MAX) Int64.one
          = Undefined) as U by (apply advance_undefined; reflexivity).
  split.
  - cbn [run invoke bind]. rewrite U. reflexivity.
  - intros (vc' & E & _). congruence.
Qed.

(** C1 (amended).  For every pair of 64-bit values [a] and [d],
    [set_time(a); advance(d)] followed by [now()] has a defined result
    exactly when [a + d] is representable in 64 bits; the current time is
    then [a + d], whatever it was before, and the [now()] returns it.  No
    overflow policy is in force beyond that range. *)
Theorem set_time_then_advance (vc : VirtualClock.t) (a d : Int64.t) :
  is_defined (run vc [SetTime a; Advance d; Read Now]) = Int64.in_range (a + d)
  /\ (Int64.in_range (a + d) = true ->
      exists vc', VirtualClock.advance (VirtualClock.set_time vc a) d = Defined vc'
                  /\ Int64.to_Z (VirtualClock.now vc') = a + d
                  /\ run vc [SetTime a; Advance d; Read Now]
                     = Defined (vc', [Time (VirtualClock.now vc')])).
Proof.
  split.
  - cbn [run invoke bind].
    destruct (Int64.in_range (a + d)) eqn:H.
    + rewrite (advance_in_range (VirtualClock.set_time vc a) d H). reflexivity.
    + assert (VirtualClock.advance (VirtualClock.set_time vc a) d = Undefined) as ->
        by (apply advance_undefined; exact H).
      reflexivity.
  - intros H.
    pose proof (advance_in_range (VirtualClock.set_time vc a) d H) as E.
    eexists. split; [exact E|]. split.
    + simpl. apply Int64Facts.wrap_small, H.
    + simpl. rewrite E. reflexivity.
Qed.

Lemma set_time_then_advance_witness :
  run (VirtualClock.ctor (Int64.repr 42))
      [SetTime (Int64.repr 5000000000); Advance (Int64.repr 1000000000); Read Now]
  = Defined (VirtualClock.ctor (Int64.repr 6000000000), [Time (Int64.repr 6000000000)]).
Proof.
  destruct (set_time_then_advance (VirtualClock.ctor (Int64.repr 42))
              (Int64.repr 5000000000) (Int64.repr 1000000000)) as [_ H].
  destruct (H eq_refl) as (vc' & _ & Hv & ->).
  assert (vc' = VirtualClock.ctor (Int64.repr 6000000000)) as ->
    by (apply clock_eq; rewrite Hv; reflexivity).
  reflexivity.
Defined.

(** ** C2: overflow in [advance] *)

(** At [INT64_MAX], advancing by one nanosecond overflows the addition:
    the call has no defined result, neither the saturated nor the wrapped
    one. *)
Lemma advance_overflow_undefined :
  VirtualClock.advance (VirtualClock.ctor Int64.INT64_MAX) Int64.one = Undefined
  /\ VirtualClock.advance (VirtualClock.ctor Int64.INT64_MAX) Int64.one
     <> Defined (VirtualClock.ctor (Int64.repr (Int64.saturate (Int64.INT64_MAX + Int64.one))))
  /\ VirtualClock.advance (VirtualClock.ctor Int64.INT64_MAX) Int64.one
     <> Defined (VirtualClock.ctor (Int64.repr (Int64.wrap (Int64.INT64_MAX + Int64.one)))).
Proof.
  assert (VirtualClock.advance (VirtualClock.ctor Int64.INT64_MAX) Int64.one = Undefined) as E
    by (apply advance_undefined; reflexivity).
  rewrite E. repeat split; discriminate.
Qed.

(** C2 (amended).  [advance(d)] on a clock at [t] is defined exactly when
    [t + d] is representable in 64 bits.  It then stores [t + d], the value
    saturating and wrapping addition agree on; there is no saturation and no
    wrap-around beyond that range. *)
Theorem advance_defined_iff_representable (vc : VirtualClock.t) (d : Int64.t) :
  is_defined (VirtualClock.advance vc d) = Int64.in_range (VirtualClock.now vc + d)
  /\ forall vc', VirtualClock.advance vc d = Defined vc' ->
       Int64.to_Z (VirtualClock.now vc') = VirtualClock.now vc + d
       /\ Int64.to_Z (VirtualClock.now vc') = Int64.saturate (VirtualClock.now vc + d)
       /\ Int64.to_Z (VirtualClock.now vc') = Int64.wrap (VirtualClock.now vc + d).
Proof.
  split; [apply is_defined_advance|].
  intros vc' [H ->]%advance_defined.
  rewrite Int64Facts.saturate_small, Int64Facts.wrap_small by exact H. auto.
Qed.

(** ** C3: reading a [VirtualClock] *)

(** C3.  On a clock last written with [v] (by the constructor, [advance] or
    [set_time]), [now()] returns [v]; it does so through the [Clock]
    interface whatever the platform's clock reads, and leaves that clock
    alone; any series of reads leaves the [VirtualClock] as it was; [n]
    consecutive [now()] calls return [v] each; and reads that follow any
    history of calls add their answers and change nothing else. *)
Theorem now_returns_last_write (vc : VirtualClock.t) (v : Timestamp) :
  written vc v ->
  VirtualClock.now vc = v
  /\ reply vc Now = Time v
  /\ (forall w : chrono.steady_clock, now vc w = Defined (v, w))
  /\ (forall qs : list query,
        run vc (map Read qs) = Defined (vc, map (reply vc) qs))
  /\ (forall n : nat,
        run vc (repeat (Read Now) n) = Defined (vc, repeat (Time v) n))
  /\ (forall (vc0 : VirtualClock.t) (cs : list call) (answers : list answer)
             (qs : list query),
        run vc0 cs = Defined (vc, answers) ->
        run vc0 (cs ++ map Read qs) = Defined (vc, answers ++ map (reply vc) qs)).
Proof.
  intros <-%written_now.
  split; [reflexivity|]. split; [reflexivity|]. split; [reflexivity|].
  split; [|split].
  - intros qs. apply run_reads.
  - intros n.
    rewrite <- (map_repeat Now n Read), run_reads, map_repeat. reflexivity.
  - intros vc0 cs answers qs E.
    rewrite run_app, E. cbn [bind]. rewrite run_reads. reflexivity.
Qed.

Lemma now_returns_last_write_witness :
  run (VirtualClock.set_time VirtualClock.ctor_default (Int64.repr 5000000000))
      (repeat (Read Now) 1000)
  = Defined (VirtualClock.set_time VirtualClock.ctor_default (Int64.repr 5000000000),
             repeat (Time (Int64.repr 5000000000)) 1000).
Proof.
  destruct (now_returns_last_write
              (VirtualClock.set_time VirtualClock.ctor_default (Int64.repr 5000000000))
              (Int64.repr 5000000000)
              (written_set_time VirtualClock.ctor_default (Int64.repr 5000000000)))
    as (_ & _ & _ & _ & Hn & _).
  exact (Hn 1000%nat).
Defined.

(** ** C4: reading a [RealClock] *)

(** C4.  On a platform whose [steady_clock] keeps its promises, any series
    of questions that one thread puts to a [RealClock] is answered in full,
    and the timestamps [t_1, ..., t_n] read by the [now()] calls among them
    never decrease: [t_i <= t_(i+1)] for every [i]. *)
Theorem real_clock_reads_monotone
  (rc : RealClock.t) (w : chrono.steady_clock) (qs : list query) :
  chrono.steady w ->
  exists (answers : list answer) (w' : chrono.steady_clock),
    ask_all rc qs w = Defined (answers, w')
    /\ length answers = length qs
    /\ Sorted Z.le (times answers)
    /\ forall i : nat, (S i < length (times answers))%nat ->
         nth i (times answers) 0 <= nth (S i) (times answers) 0.
Proof.
  intros Hw.
  destruct (ask_all_real rc qs w Hw) as (answers & w' & E & Hlen & _ & Hsorted).
  exists answers, w'. repeat split; try assumption.
  apply Sorted_nth_succ, Hsorted.
Qed.

Lemma real_clock_reads_monotone_witness :
  exists (answers : list answer) (w' : chrono.steady_clock),
    ask_all RealClock.mk [Now; IsVirtual; Now; Now] chrono.example_clock
    = Defined (answers, w')
    /\ Sorted Z.le (times answers).
Proof.
  destruct (real_clock_reads_monotone RealClock.mk chrono.example_clock
              [Now; IsVirtual; Now; Now] example_clock_steady)
    as (answers & w' & E & _ & Hsorted & _).
  exists answers, w'. split; assumption.
Defined.

(** ** C5: construction *)

(** C5.  A [VirtualClock] constructed with [a] answers [a] to its first
    [now()]; one constructed without argument answers [0]. *)
Theorem ctor_then_now :
  (forall a : Timestamp,
     VirtualClock.now (VirtualClock.ctor a) = a
     /\ run (VirtualClock.ctor a) [Read Now] = Defined (VirtualClock.ctor a, [Time a]))
  /\ Int64.to_Z (VirtualClock.now VirtualClock.ctor_default) = 0
  /\ run VirtualClock.ctor_default [Read Now]
     = Defined (VirtualClock.ctor_default, [Time Int64.zero]).
Proof.
  split; [intros a; split; reflexivity|].
  split; reflexivity.
Qed.

(** ** C6: [is_virtual] *)

(** C6.  [is_virtual()] is [true] on every [VirtualClock] and [false] on
    every [RealClock]; and it stays so over the object's life: after any
    series of calls on a [VirtualClock] (mutations included) and any series
    of questions to either variant, the tag is the same and every answer
    collected on the way equals it. *)
Theorem is_virtual_constant :
  (forall vc : VirtualClock.t, is_virtual vc = true)
  /\ (forall rc : RealClock.t, is_virtual rc = false)
  /\ (forall (vc vc' : VirtualClock.t) (cs : list call) (answers : list answer),
        run vc cs = Defined (vc', answers) ->
        is_virtual vc' = true /\ Forall (fun b => b = true) (flags answers))
  /\ (forall (vc : VirtualClock.t) (qs : list query) (w w' : chrono.steady_clock)
             (answers : list answer),
        ask_all vc qs w = Defined (answers, w') ->
        Forall (fun b => b = true) (flags answers))
  /\ (forall (rc : RealClock.t) (qs : list query) (w w' : chrono.steady_clock)
             (answers : list answer),
        ask_all rc qs w = Defined (answers, w') ->
        Forall (fun b => b = false) (flags answers)).
Proof.
  split; [reflexivity|]. split; [reflexivity|]. split; [|split].
  - intros vc vc' cs answers E. split; [reflexivity|]. exact (run_flags _ _ _ _ E).
  - intros vc qs w w' answers E. exact (ask_all_flags vc qs _ _ _ E).
  - intros rc qs w w' answers E. exact (ask_all_flags rc qs _ _ _ E).
Qed.

(** ** C7: negative deltas *)

(** At [INT64_MIN], moving one nanosecond backwards has no defined result,
    so no [now()] follows that returns [t + d]. *)
Lemma advance_negative_underflow :
  Int64.to_Z (Int64.repr (-1)) < 0
  /\ ~ exists vc', VirtualClock.advance (VirtualClock.ctor Int64.INT64_MIN) (Int64.repr (-1))
                   = Defined vc'
                   /\ Int64.to_Z (VirtualClock.now vc') = Int64.INT64_MIN + Int64.repr (-1).
Proof.
  split; [reflexivity|].
  intros (vc' & E & _).
  assert (VirtualClock.advance (VirtualClock.ctor Int64.INT64_MIN) (Int64.repr (-1)) = Undefined) as U
    by (apply advance_undefined; reflexivity).
  congruence.
Qed.

(** C7 (amended).  A negative delta is applied exactly, without clamping at
    zero or at the previous time, whenever [t + d] is not below [INT64_MIN]:
    the next [now()] returns [t + d], which is less than [t].  In particular
    [VirtualClock(100); advance(-50)] gives [now() == 50]. *)
Theorem advance_negative_exact (vc : VirtualClock.t) (d : Int64.t) :
  d < 0 ->
  Int64.min_signed <= VirtualClock.now vc + d ->
  (exists vc', VirtualClock.advance vc d = Defined vc'
               /\ Int64.to_Z (VirtualClock.now vc') = VirtualClock.now vc + d
               /\ VirtualClock.now vc' < VirtualClock.now vc)
  /\ run (VirtualClock.ctor (Int64.repr 100)) [Advance (Int64.repr (-50)); Read Now]
     = Defined (VirtualClock.ctor (Int64.repr 50), [Time (Int64.repr 50)]).
Proof.
  intros Hd Hlow. split.
  - assert (Int64.in_range (VirtualClock.now vc + d) = true) as H by (ranges; lia).
    exists (VirtualClock.ctor (Int64.repr (VirtualClock.now vc + d))).
    split; [apply advance_in_range, H|].
    simpl. rewrite Int64Facts.wrap_small by exact H.
    unfold VirtualClock.now. lia.
  - cbn [run invoke bind]. rewrite advance_in_range by reflexivity. cbn [bind].
    replace (Int64.repr (VirtualClock.now (VirtualClock.ctor (Int64.repr 100)) + Int64.repr (-50)))
      with (Int64.repr 50) by (apply Int64Facts.to_Z_inj; reflexivity).
    reflexivity.
Qed.

Lemma advance_negative_exact_witness :
  exists vc', VirtualClock.advance (VirtualClock.ctor (Int64.repr 100)) (Int64.repr (-50))
              = Defined vc'
              /\ Int64.to_Z (VirtualClock.now vc') = 50.
Proof.
  destruct (advance_negative_exact (VirtualClock.ctor (Int64.repr 100)) (Int64.repr (-50)))
    as [(vc' & E & Hv & _) _].
  - reflexivity.
  - vm_compute. discriminate.
  - exists vc'. split; [exact E | exact Hv].
Defined.

(** ** C8: [set_time] *)

(** C8.  [set_time(a)] makes the current time exactly [a], whatever the
    time was before: the previous value is not consulted, so [a] may be
    earlier than, equal to or later than it. *)
Theorem set_time_overwrites (vc : VirtualClock.t) (a : Timestamp) :
  VirtualClock.now (VirtualClock.set_time vc a) = a
  /\ run vc [SetTime a; Read Now] = Defined (VirtualClock.set_time vc a, [Time a])
  /\ forall vc0 : VirtualClock.t, VirtualClock.set_time vc0 a = VirtualClock.set_time vc a.
Proof.
  repeat split.
Qed.

(** ** C9: which operations are total *)

(** [advance(INT64_MIN)] on a clock at [INT64_MIN] does not succeed: the
    call has no defined result. *)
Lemma invoke_advance_overflow :
  invoke (VirtualClock.ctor Int64.INT64_MIN) (Advance Int64.INT64_MIN) = Undefined.
Proof.
  cbn [invoke].
  replace (VirtualClock.advance (VirtualClock.ctor Int64.INT64_MIN) Int64.INT64_MIN)
    with (@Undefined VirtualClock.t) by (symmetry; apply advance_undefined; reflexivity).
  reflexivity.
Qed.

(** C9 (amended).  No operation has an error result.  [now()] and
    [is_virtual()] are answered on both variants (on a [RealClock], given a
    platform clock that keeps its promises), [set_time] succeeds for every
    64-bit input, and [advance(d)] succeeds for every 64-bit [d] for which
    the sum of the current time and [d] is representable.  An [advance]
    whose sum is not representable is the one call without a defined
    result. *)
Theorem operations_total :
  (forall (vc : VirtualClock.t) (c : call),
     is_defined (invoke vc c) = representable vc c)
  /\ (forall (vc : VirtualClock.t) (q : query),
        invoke vc (Read q) = Defined (vc, Some (reply vc q)))
  /\ (forall (vc : VirtualClock.t) (a : Timestamp),
        invoke vc (SetTime a) = Defined (VirtualClock.ctor a, None))
  /\ (forall (vc : VirtualClock.t) (d : Int64.t),
        Int64.in_range (VirtualClock.now vc + d) = true ->
        invoke vc (Advance d)
        = Defined (VirtualClock.ctor (Int64.repr (VirtualClock.now vc + d)), None))
  /\ (forall (vc : VirtualClock.t) (q : query) (w : chrono.steady_clock),
        ask vc q w = Defined (reply vc q, w))
  /\ (forall (rc : RealClock.t) (q : query) (w : chrono.steady_clock),
        chrono.steady w -> is_defined (ask rc q w) = true).
Proof.
  split; [|split; [|split; [|split; [|split]]]].
  - intros vc [[|] | d | a]; try reflexivity.
    cbn [invoke representable]. rewrite <- is_defined_advance.
    destruct (VirtualClock.advance vc d); reflexivity.
  - intros vc [|]; reflexivity.
  - reflexivity.
  - intros vc d H. cbn [invoke]. rewrite (advance_in_range vc d H). reflexivity.
  - intros vc [|] w; reflexivity.
  - intros rc [|] w Hw; [|reflexivity].
    destruct (real_now_defined rc w Hw) as (t & E & _).
    cbn [ask]. change (now rc w) with (RealClock.now rc w). rewrite E. reflexivity.
Qed.

(** ** C10: two [advance] calls in a row *)

(** From [INT64_MAX], [advance(1); advance(-1)] overflows in its first step,
    whereas [advance(1 + -1)] and [advance(-1); advance(1)] are both defined
    and leave the clock at [INT64_MAX]. *)
Lemma advance_twice_overflow :
  advance_twice (VirtualClock.ctor Int64.INT64_MAX) Int64.one (Int64.repr (-1)) = Undefined
  /\ VirtualClock.advance (VirtualClock.ctor Int64.INT64_MAX)
       (Int64.repr (Int64.one + Int64.repr (-1)))
     = Defined (VirtualClock.ctor Int64.INT64_MAX)
  /\ advance_twice (VirtualClock.ctor Int64.INT64_MAX) (Int64.repr (-1)) Int64.one
     = Defined (VirtualClock.ctor Int64.INT64_MAX).
Proof.
  split; [|split].
  - unfold advance_twice.
    replace (VirtualClock.advance (VirtualClock.ctor Int64.INT64_MAX) Int64.one)
      with (@Undefined VirtualClock.t) by (symmetry; apply advance_undefined; reflexivity).
    reflexivity.
  - apply advance_defined. split; reflexivity.
  - rewrite advance_twice_checked by reflexivity.
    rewrite Int64Facts.checked_repr by reflexivity. cbn [bind].
    reflexivity.
Qed.

(** C10 (amended).  When the first step [t + d1] is representable:
    - if [d1 + d2] is representable too, [advance(d1); advance(d2)] has the
      outcome of the single call [advance(d1 + d2)];
    - if [t + d2] is representable too, the two calls commute.
    In both cases the common outcome is the clock at [t + d1 + d2] when that
    sum is representable. *)
Theorem advance_twice_single (vc : VirtualClock.t) (d1 d2 : Int64.t) :
  Int64.in_range (VirtualClock.now vc + d1) = true ->
  (Int64.in_range (d1 + d2) = true ->
   advance_twice vc d1 d2 = VirtualClock.advance vc (Int64.repr (d1 + d2)))
  /\ (Int64.in_range (VirtualClock.now vc + d2) = true ->
      advance_twice vc d1 d2 = advance_twice vc d2 d1)
  /\ (Int64.in_range (VirtualClock.now vc + d1 + d2) = true ->
      exists vc', advance_twice vc d1 d2 = Defined vc'
                  /\ Int64.to_Z (VirtualClock.now vc') = VirtualClock.now vc + d1 + d2).
Proof.
  intros H1. split; [|split].
  - intros H12. rewrite (advance_twice_checked vc d1 d2 H1), advance_checked.
    cbn [Int64.repr Int64.to_Z]. rewrite (Int64Facts.wrap_small _ H12).
    now rewrite Z.add_assoc.
  - intros H2. rewrite (advance_twice_checked vc d1 d2 H1), (advance_twice_checked vc d2 d1 H2).
    now replace (VirtualClock.now vc + d2 + d1) with (VirtualClock.now vc + d1 + d2) by lia.
  - intros H. rewrite (advance_twice_checked vc d1 d2 H1), (Int64Facts.checked_repr _ H).
    eexists. split; [reflexivity|]. simpl. apply Int64Facts.wrap_small, H.
Qed.

Lemma advance_twice_single_witness :
  advance_twice VirtualClock.ctor_default (Int64.repr 1000000000) (Int64.repr (-400))
  = VirtualClock.advance VirtualClock.ctor_default (Int64.repr 999999600)
  /\ advance_twice VirtualClock.ctor_default (Int64.repr 1000000000) (Int64.repr (-400))
     = advance_twice VirtualClock.ctor_default (Int64.repr (-400)) (Int64.repr 1000000000).
Proof.
  destruct (advance_twice_single VirtualClock.ctor_default
              (Int64.repr 1000000000) (Int64.repr (-400)) eq_refl) as (Hs & Hc & _).
  split.
  - exact (Hs eq_refl).
  - exact (Hc eq_refl).
Defined.

(** ** The demonstration of [main.cpp] *)

(** The calls [main] makes on its [VirtualClock], and what it prints. *)
Example main_virtual_clock :
  observed (run (VirtualClock.ctor (Int64.repr 0))
              [Read Now;
               Advance (Int64.repr 1000000000); Read Now;
               SetTime (Int64.repr 5000000000); Read Now;
               Read IsVirtual])
  = Some ([0; 1000000000; 5000000000], [true]).
Proof. vm_compute. reflexivity. Qed.

(** * Further properties of the code *)

(** ** Sequences of calls on a [VirtualClock] *)

Lemma is_defined_bind_pair {A B C : Type} (m : outcome (A * B)) (f : A -> B -> C) :
  is_defined ('(a, b) <- m ;; Defined (f a b)) = is_defined m.
Proof. destruct m as [[a b]|]; reflexivity. Qed.

Lemma now_ctor_repr (z : Z) :
  Int64.in_range z = true ->
  Int64.to_Z (VirtualClock.now (VirtualClock.ctor (Int64.repr z))) = z.
Proof. intros H. simpl. apply Int64Facts.wrap_small, H. Qed.

(** Whenever a run of calls has a defined result, the clock did exact
    integer arithmetic: it ends at the time the unbounded reading of the
    calls gives, every [now()] on the way returned the time of that reading,
    and every [is_virtual()] returned [true]. *)
Theorem run_exact (cs : list call) :
  forall (vc vc' : VirtualClock.t) (answers : list answer),
    run vc cs = Defined (vc', answers) ->
    Int64.to_Z (VirtualClock.now vc') = time_after (VirtualClock.now vc) cs
    /\ times answers = times_read (VirtualClock.now vc) cs
    /\ Forall (fun b => b = true) (flags answers).
Proof.
  intros vc vc' answers E.
  cut (Int64.to_Z (VirtualClock.now vc') = time_after (VirtualClock.now vc) cs
       /\ times answers = times_read (VirtualClock.now vc) cs).
  { intros [H1 H2]. repeat split; try assumption. exact (run_flags _ _ _ _ E). }
  revert vc vc' answers E.
  induction cs as [|c cs IH]; intros vc vc' answers E.
  - inversion E; subst. split; reflexivity.
  - cbn [run] in E.
    apply bind_defined in E as ([vc1 a] & Ea & E).
    apply bind_defined in E as ([vc2 rest] & Er & [= <- <-]).
    destruct (IH _ _ _ Er) as [Hend Hread].
    unfold time_after in *. cbn [fold_left].
    destruct c as [[|] | d | a0]; cbn [invoke] in Ea.
    + inversion Ea; subst. cbn [times times_read time_after_call].
      split; [exact Hend | now rewrite Hread].
    + inversion Ea; subst. cbn [times times_read time_after_call].
      split; assumption.
    + apply bind_defined in Ea as (vc3 & [_ Hsum]%advance_defined & [= <- <-]).
      cbn [times_read time_after_call]. rewrite <- Hsum. split; assumption.
    + inversion Ea; subst. cbn [times_read time_after_call]. split; assumption.
Qed.

Lemma run_exact_witness :
  exists (vc' : VirtualClock.t) (answers : list answer),
    run (VirtualClock.ctor (Int64.repr 3))
        [Read Now; Advance (Int64.repr 10); Read Now; Read IsVirtual;
         SetTime (Int64.repr 5); Advance (Int64.repr (-7)); Read Now]
    = Defined (vc', answers)
    /\ Int64.to_Z (VirtualClock.now vc') = -2
    /\ times answers = [3; 13; -2].
Proof.
  destruct (run (VirtualClock.ctor (Int64.repr 3))
              [Read Now; Advance (Int64.repr 10); Read Now; Read IsVirtual;
               SetTime (Int64.repr 5); Advance (Int64.repr (-7)); Read Now])
    as [[vc' answers]|] eqn:E.
  - exists vc', answers. split; [reflexivity|].
    destruct (run_exact _ _ _ _ E) as (Hend & Hread & _).
    split; [exact Hend | exact Hread].
  - vm_compute in E. discriminate.
Defined.

(** A run of calls has a defined result exactly when the current time, read
    in unbounded integers, stays representable in 64 bits after each call:
    an overflow anywhere on the way, and only that, leaves the whole run
    undefined, even if the time would have come back into range later. *)
Theorem run_defined_iff (cs : list call) :
  forall vc : VirtualClock.t,
    is_defined (run vc cs) = representable_throughout (VirtualClock.now vc) cs.
Proof.
  induction cs as [|c cs IH]; intros vc; [reflexivity|].
  cbn [run representable_throughout].
  destruct c as [[|] | d | a0]; cbn [invoke time_after_call].
  - cbn [bind]. rewrite is_defined_bind_pair, IH.
    unfold VirtualClock.now. now rewrite Int64.to_Z_range.
  - cbn [bind]. rewrite is_defined_bind_pair, IH.
    unfold VirtualClock.now. now rewrite Int64.to_Z_range.
  - destruct (Int64.in_range (VirtualClock.now vc + d)) eqn:Hr.
    + rewrite (advance_in_range vc d Hr). cbn [bind andb].
      rewrite is_defined_bind_pair, IH, (now_ctor_repr _ Hr). reflexivity.
    + apply advance_undefined in Hr. rewrite Hr. reflexivity.
  - cbn [bind]. rewrite is_defined_bind_pair, IH.
    cbn [VirtualClock.set_time VirtualClock.now VirtualClock.current_time_].
    now rewrite Int64.to_Z_range.
Qed.

(** ** [advance] loses nothing *)

(** [advance] never sends two different times, or two different deltas,
    to the same time: from the time after the call and one of the two
    operands the other is determined.  (A saturating addition would merge
    times at the bounds.) *)
Theorem advance_injective (vc1 vc2 vc' : VirtualClock.t) (d1 d2 : Int64.t) :
  VirtualClock.advance vc1 d1 = Defined vc' ->
  VirtualClock.advance vc2 d2 = Defined vc' ->
  (vc1 = vc2 <-> d1 = d2).
Proof.
  intros [_ H1]%advance_defined [_ H2]%advance_defined. split.
  - intros ->. apply Int64Facts.to_Z_inj. lia.
  - intros ->. apply clock_eq. lia.
Qed.

(** Two clocks that start at different times, [0] and [100], reach the same
    time [50] only by different deltas, [+50] and [-50]. *)
Lemma advance_injective_witness :
  VirtualClock.ctor (Int64.repr 0) = VirtualClock.ctor (Int64.repr 100)
  <-> Int64.repr 50 = Int64.repr (-50).
Proof.
  apply (advance_injective (VirtualClock.ctor (Int64.repr 0))
           (VirtualClock.ctor (Int64.repr 100))
           (VirtualClock.ctor (Int64.repr 50))
           (Int64.repr 50) (Int64.repr (-50)));
    apply advance_defined; split; reflexivity.
Defined.

(** Rewinding: [advance(d)] followed by [advance(-d)] puts the clock back
    where it was, whenever the first step is representable and [d] is not
    [INT64_MIN] (whose negation is not a 64-bit value). *)
Theorem advance_round_trip (vc : VirtualClock.t) (d : Int64.t) :
  Int64.in_range (VirtualClock.now vc + d) = true ->
  Int64.in_range (- d) = true ->
  advance_twice vc d (Int64.repr (- d)) = Defined vc.
Proof.
  intros H Hneg. rewrite (advance_twice_checked vc d _ H).
  cbn [Int64.repr Int64.to_Z]. rewrite (Int64Facts.wrap_small _ Hneg).
  replace (VirtualClock.now vc + d + - d) with (Int64.to_Z (VirtualClock.now vc)) by lia.
  rewrite Int64Facts.checked_repr by apply Int64.to_Z_range.
  cbn [bind]. f_equal. apply clock_eq. apply now_ctor_repr, Int64.to_Z_range.
Qed.

Lemma advance_round_trip_witness :
  advance_twice (VirtualClock.ctor (Int64.repr 100)) (Int64.repr 1000000000)
    (Int64.repr (- Int64.repr 1000000000))
  = Defined (VirtualClock.ctor (Int64.repr 100)).
Proof.
  apply (advance_round_trip (VirtualClock.ctor (Int64.repr 100)) (Int64.repr 1000000000));
    reflexivity.
Defined.

(** A step of [INT64_MIN] cannot be undone by one [advance]: whatever the
    second delta, the clock is not back where it was. *)
Theorem advance_min_not_undone (vc : VirtualClock.t) (d : Int64.t) :
  advance_twice vc Int64.INT64_MIN d <> Defined vc.
Proof.
  unfold advance_twice. intros E.
  apply bind_defined in E as (vc1 & [_ H1]%advance_defined & [_ H2]%advance_defined).
  rewrite H1 in H2.
  change (Int64.to_Z Int64.INT64_MIN) with (-9223372036854775808) in H2.
  ranges. lia.
Qed.

(** ** A [VirtualClock] behind the [Clock] interface *)

(** A consumer that holds a [VirtualClock] as a [Clock] gets, to any series
    of questions, the answers its stored time determines; the platform's
    steady clock is neither read nor changed, so the answers are the same on
    every platform and at every moment. *)
Theorem virtual_ignores_platform (vc : VirtualClock.t) (qs : list query) :
  forall w : chrono.steady_clock,
    ask_all vc qs w = Defined (map (reply vc) qs, w).
Proof.
  induction qs as [|q qs IH]; intros w; [reflexivity|].
  cbn [ask_all map]. destruct q; cbn [ask now is_virtual VirtualClock_Clock bind];
    rewrite IH; reflexivity.
Qed.

(** ** The platforms *)

Lemma CF_nanosecond : chrono.CF_num 1 1000000000 = 1 /\ chrono.CF_den 1 1000000000 = 1.
Proof. split; vm_compute; reflexivity. Qed.

Lemma CF_fast : chrono.CF_num 1 3000000000 = 1 /\ chrono.CF_den 1 3000000000 = 3.
Proof. split; vm_compute; reflexivity. Qed.

Lemma nanosecond_clock_steady : chrono.steady nanosecond_clock.
Proof.
  assert (forall k : nat,
            Int64.to_Z (chrono.tick_at nanosecond_clock k)
            = Z.min (250000000 * Z.of_nat k - 7) 4000000000000000000) as Htick.
  { intros k. cbn [chrono.tick_at nanosecond_clock Int64.repr Int64.to_Z].
    apply Int64Facts.wrap_small. ranges. lia. }
  constructor.
  - reflexivity.
  - reflexivity.
  - split; reflexivity.
  - intros i j Hij. rewrite !Htick. lia.
  - intros k. rewrite Htick.
    cbn [chrono.period_num chrono.period_den nanosecond_clock].
    rewrite (proj1 CF_nanosecond). ranges. lia.
Qed.

Lemma fast_clock_steady : chrono.steady fast_clock.
Proof.
  assert (forall k : nat,
            Int64.to_Z (chrono.tick_at fast_clock k)
            = Z.min (1000 * Z.of_nat k + 7) 1000000000000000) as Htick.
  { intros k. cbn [chrono.tick_at fast_clock Int64.repr Int64.to_Z].
    apply Int64Facts.wrap_small. ranges. lia. }
  constructor.
  - reflexivity.
  - reflexivity.
  - split; reflexivity.
  - intros i j Hij. rewrite !Htick. lia.
  - intros k. rewrite Htick.
    cbn [chrono.period_num chrono.period_den fast_clock].
    rewrite (proj1 CF_fast). ranges. lia.
Qed.

Lemma wide_clock_steady : chrono.steady wide_clock.
Proof.
  constructor.
  - reflexivity.
  - reflexivity.
  - split; reflexivity.
  - intros [|i] [|j] Hij; cbn [chrono.tick_at wide_clock]; try lia;
      vm_compute; discriminate.
  - intros [|k]; cbn [chrono.period_num chrono.period_den wide_clock];
      rewrite (proj1 CF_nanosecond); reflexivity.
Qed.

(** ** What [RealClock::now] returns *)

Lemma duration_cast_nanoseconds_undefined (c : Int64.t) (n d : Z) :
  0 < n -> 0 < d ->
  Int64.in_range (n * chrono.nano_den) = true -> Int64.in_range d = true ->
  Int64.in_range (c * chrono.CF_num n d) = false ->
  chrono.duration_cast_nanoseconds {| chrono.count := c; chrono.num := n; chrono.den := d |}
  = Undefined.
Proof.
  intros Hn Hd Hx Hdr Hout.
  destruct (CF_bounds n d Hn Hd Hx Hdr) as (HN & HD & EN & ED).
  unfold chrono.duration_cast_nanoseconds.
  cbn [chrono.count chrono.num chrono.den].
  set (N := chrono.CF_num n d) in *. set (D := chrono.CF_den n d) in *.
  assert ((N =? 1) = false) as HN1.
  { apply Z.eqb_neq. intros E. rewrite E, Z.mul_1_r, Int64.to_Z_range in Hout. discriminate. }
  assert (Int64.mul c (Int64.repr N) = Undefined) as Hmul.
  { unfold Int64.mul. rewrite EN. apply Int64Facts.checked_out, Hout. }
  rewrite HN1. cbn [andb]. destruct (D =? 1); rewrite Hmul; reflexivity.
Qed.

(** [RealClock::now] has a defined result exactly when the reading of the
    platform's clock, multiplied by the numerator of the conversion factor
    to nanoseconds, is representable in 64 bits; otherwise the
    multiplication inside [duration_cast] overflows. *)
Theorem real_now_defined_iff (rc : RealClock.t) (w : chrono.steady_clock) :
  0 < chrono.period_num w -> 0 < chrono.period_den w ->
  Int64.in_range (chrono.period_num w * chrono.nano_den) = true ->
  Int64.in_range (chrono.period_den w) = true ->
  is_defined (RealClock.now rc w)
  = Int64.in_range (chrono.tick_at w (chrono.calls w)
                    * chrono.CF_num (chrono.period_num w) (chrono.period_den w)).
Proof.
  intros Hn Hd Hx Hdr.
  unfold RealClock.now, chrono.steady_clock_now. cbn [chrono.time_since_epoch].
  destruct (Int64.in_range (chrono.tick_at w (chrono.calls w)
                            * chrono.CF_num (chrono.period_num w) (chrono.period_den w)))
    eqn:Hfit.
  - destruct (duration_cast_nanoseconds_defined _ _ _ Hn Hd Hx Hdr Hfit) as (ns & -> & _).
    reflexivity.
  - rewrite (duration_cast_nanoseconds_undefined _ _ _ Hn Hd Hx Hdr Hfit). reflexivity.
Qed.

(** A platform that counts whole seconds, read 10^10 seconds after its
    epoch: the nanosecond count does not fit 64 bits. *)
Lemma real_now_defined_iff_witness :
  is_defined (RealClock.now RealClock.mk
                {| chrono.period_num := 1; chrono.period_den := 1;
                   chrono.tick_at := fun _ => Int64.repr 10000000000;
                   chrono.calls := 0 |}) = false.
Proof.
  rewrite (real_now_defined_iff RealClock.mk
             {| chrono.period_num := 1; chrono.period_den := 1;
                chrono.tick_at := fun _ => Int64.repr 10000000000;
                chrono.calls := 0 |});
    cbn [chrono.period_num chrono.period_den]; try reflexivity; lia.
Defined.

(** On a platform whose steady clock already counts nanoseconds,
    [RealClock::now] returns the platform's reading unchanged and always has
    a defined result: the conversion does no arithmetic. *)
Theorem real_now_nanosecond_platform (rc : RealClock.t) (w : chrono.steady_clock) :
  0 < chrono.period_den w ->
  chrono.period_num w * chrono.nano_den = chrono.period_den w ->
  RealClock.now rc w
  = Defined (chrono.tick_at w (chrono.calls w), snd (chrono.steady_clock_now w)).
Proof.
  intros Hd Hp.
  unfold RealClock.now, chrono.steady_clock_now, chrono.duration_cast_nanoseconds.
  cbn [chrono.time_since_epoch chrono.count chrono.num chrono.den snd].
  unfold chrono.CF_num, chrono.CF_den. rewrite Hp.
  rewrite Z.gcd_diag_nonneg by lia. rewrite Z.div_same by lia.
  reflexivity.
Qed.

Lemma real_now_nanosecond_platform_witness :
  RealClock.now RealClock.mk nanosecond_clock
  = Defined (Int64.repr (-7), snd (chrono.steady_clock_now nanosecond_clock)).
Proof.
  rewrite (real_now_nanosecond_platform RealClock.mk nanosecond_clock);
    [|reflexivity|reflexivity].
  f_equal.
Defined.

(** The timestamp [RealClock::now] returns is the platform's reading
    converted to nanoseconds and rounded towards zero: it is off by less
    than one nanosecond, never exceeds the exact value in magnitude, and is
    exact when the tick period is a whole number of nanoseconds. *)
Theorem real_now_rounds_toward_zero
  (rc : RealClock.t) (w w' : chrono.steady_clock) (t : Timestamp) :
  chrono.steady w ->
  RealClock.now rc w = Defined (t, w') ->
  let x := chrono.tick_at w (chrono.calls w)
           * chrono.CF_num (chrono.period_num w) (chrono.period_den w) in
  let D := chrono.CF_den (chrono.period_num w) (chrono.period_den w) in
  Z.abs (x - t * D) < D
  /\ Z.abs (t * D) <= Z.abs x
  /\ (D = 1 -> Int64.to_Z t = x).
Proof.
  intros Hw E x D.
  destruct (real_now_defined rc w Hw) as (t0 & E0 & Ht).
  rewrite E0 in E. injection E as -> _.
  destruct Hw as [Hn Hd [Hx Hdr] _ _].
  destruct (CF_bounds _ _ Hn Hd Hx Hdr) as (_ & HD & _).
  unfold chrono.to_nanoseconds in Ht. fold x D in Ht, HD.
  pose proof (Z.quot_rem' x D) as Hqr.
  pose proof (Z.rem_bound_abs x D ltac:(lia)) as Hrb.
  pose proof (Z.rem_sign_mul x D ltac:(lia)) as Hrs.
  assert (0 <= D * t <= x \/ x <= D * t <= 0) as Hside.
  { rewrite Ht. destruct (Z.le_ge_cases 0 x) as [Hx0|Hx0].
    - left. apply Z.mul_quot_le; lia.
    - right. apply Z.mul_quot_ge; lia. }
  rewrite <- Ht in Hqr. clearbody x D.
  split; [|split].
  - replace (x - t * D) with (Z.rem x D) by lia. lia.
  - lia.
  - intros HD1. rewrite HD1 in Hqr. rewrite HD1, Z.rem_1_r in Hrb, Hrs.
    rewrite Z.rem_1_r in Hqr. lia.
Qed.

Lemma real_now_rounds_toward_zero_witness :
  exists (t : Timestamp) (w' : chrono.steady_clock),
    RealClock.now RealClock.mk fast_clock = Defined (t, w')
    /\ Z.abs (7 - t * 3) < 3.
Proof.
  destruct (real_now_defined RealClock.mk fast_clock fast_clock_steady) as (t & E & _).
  exists t, (snd (chrono.steady_clock_now fast_clock)). split; [exact E|].
  destruct (real_now_rounds_toward_zero RealClock.mk fast_clock _ t fast_clock_steady E)
    as (Herr & _).
  cbn [chrono.period_num chrono.period_den chrono.calls fast_clock] in Herr.
  rewrite (proj1 CF_fast), (proj2 CF_fast) in Herr. exact Herr.
Defined.

(** ** Series of reads of a [RealClock] *)

(** On a steady platform, a series of questions to a [RealClock] reads the
    platform's clock once per [now()] and not at all per [is_virtual()]:
    the [k]-th timestamp is the conversion of the platform's [k]-th next
    reading, the platform's clock has afterwards been called once more per
    [now()], and nothing else about it has changed. *)
Theorem real_clock_reads_exact (rc : RealClock.t) (qs : list query) :
  forall w : chrono.steady_clock,
    chrono.steady w ->
    exists (answers : list answer) (w' : chrono.steady_clock),
      ask_all rc qs w = Defined (answers, w')
      /\ times answers
         = map (fun k => chrono.to_nanoseconds (chrono.period_num w) (chrono.period_den w)
                           (chrono.tick_at w k))
               (seq (chrono.calls w) (nows qs))
      /\ chrono.calls w' = (chrono.calls w + nows qs)%nat
      /\ chrono.tick_at w' = chrono.tick_at w
      /\ chrono.period_num w' = chrono.period_num w
      /\ chrono.period_den w' = chrono.period_den w.
Proof.
  induction qs as [|q qs IH]; intros w Hw.
  - exists [], w. cbn [nows seq map times ask_all]. repeat split. lia.
  - destruct q.
    + destruct (real_now_defined rc w Hw) as (t & Et & Ht).
      destruct (IH _ (steady_after_now w Hw))
        as (rest & w' & Er & Htimes & Hcalls & Htick & Hnum & Hden).
      cbn [chrono.steady_clock_now snd chrono.period_num chrono.period_den
           chrono.tick_at chrono.calls] in Htimes, Hcalls, Htick, Hnum, Hden.
      exists (Time t :: rest), w'. split; [|repeat split; try assumption].
      * cbn [ask_all ask]. change (now rc w) with (RealClock.now rc w).
        rewrite Et. cbn [bind]. rewrite Er. reflexivity.
      * cbn [times nows seq map]. now rewrite Ht, Htimes.
      * cbn [nows]. lia.
    + destruct (IH _ Hw) as (rest & w' & Er & Hrest).
      exists (Flag (is_virtual rc) :: rest), w'. split; [|exact Hrest].
      cbn [ask_all ask bind]. rewrite Er. reflexivity.
Qed.

Lemma real_clock_reads_exact_witness :
  exists (answers : list answer) (w' : chrono.steady_clock),
    ask_all RealClock.mk [Now; IsVirtual; Now; Now] chrono.example_clock
    = Defined (answers, w')
    /\ times answers = [0; 300; 600]
    /\ chrono.calls w' = 3%nat.
Proof.
  destruct (real_clock_reads_exact RealClock.mk [Now; IsVirtual; Now; Now]
              chrono.example_clock example_clock_steady)
    as (answers & w' & E & Htimes & Hcalls & _).
  exists answers, w'. split; [exact E|]. split; [|exact Hcalls].
  rewrite Htimes. vm_compute. reflexivity.
Defined.

(** ** [main] *)

Lemma real_now_twice (rc : RealClock.t) (w : chrono.steady_clock) :
  chrono.steady w ->
  exists (t1 t2 : Timestamp) (w' : chrono.steady_clock),
    RealClock.now rc w = Defined (t1, snd (chrono.steady_clock_now w))
    /\ RealClock.now rc (snd (chrono.steady_clock_now w)) = Defined (t2, w')
    /\ Int64.to_Z t1
       = chrono.to_nanoseconds (chrono.period_num w) (chrono.period_den w)
           (chrono.tick_at w (chrono.calls w))
    /\ Int64.to_Z t2
       = chrono.to_nanoseconds (chrono.period_num w) (chrono.period_den w)
           (chrono.tick_at w (S (chrono.calls w)))
    /\ t1 <= t2
    /\ chrono.calls w' = S (S (chrono.calls w)).
Proof.
  intros Hw.
  destruct (real_now_defined rc w Hw) as (t1 & E1 & H1).
  destruct (real_now_defined rc _ (steady_after_now w Hw)) as (t2 & E2 & H2).
  cbn [chrono.steady_clock_now snd chrono.period_num chrono.period_den
       chrono.tick_at chrono.calls] in H2.
  exists t1, t2, (snd (chrono.steady_clock_now (snd (chrono.steady_clock_now w)))).
  repeat split; try assumption.
  rewrite H1, H2. destruct Hw as [Hn Hd [Hx Hdr] Hs _].
  destruct (CF_bounds _ _ Hn Hd Hx Hdr) as (HN & HD & _).
  apply to_nanoseconds_mono; [exact HN | exact HD | apply Hs; lia].
Qed.

(** [main] from its two reads of the [RealClock] on: all that is left to go
    wrong is the subtraction. *)
Lemma main_after_reads (w : chrono.steady_clock) :
  chrono.steady w ->
  exists (t1 t2 : Timestamp) (w' : chrono.steady_clock),
    main_cpp.main w
    = (delta_ns <- Int64.sub t2 t1 ;;
       delta_ms <- Int64.div delta_ns (Int64.repr 1000000) ;;
       Defined (0, main_cpp.transcript delta_ms, w'))
    /\ Int64.to_Z t1
       = chrono.to_nanoseconds (chrono.period_num w) (chrono.period_den w)
           (chrono.tick_at w (chrono.calls w))
    /\ Int64.to_Z t2
       = chrono.to_nanoseconds (chrono.period_num w) (chrono.period_den w)
           (chrono.tick_at w (S (chrono.calls w)))
    /\ t1 <= t2
    /\ chrono.calls w' = S (S (chrono.calls w)).
Proof.
  intros Hw.
  destruct (real_now_twice RealClock.mk w Hw) as (t1 & t2 & w' & E1 & E2 & H).
  exists t1, t2, w'. split; [|exact H].
  unfold main_cpp.main, main_cpp.sleep_for.
  change (now RealClock.mk w) with (RealClock.now RealClock.mk w).
  rewrite E1. cbn [bind].
  change (now RealClock.mk (snd (chrono.steady_clock_now w)))
    with (RealClock.now RealClock.mk (snd (chrono.steady_clock_now w))).
  rewrite E2. cbn [bind].
  destruct (Int64.sub t2 t1) as [delta_ns|]; [|reflexivity]. cbn [bind].
  destruct (Int64.div delta_ns (Int64.repr 1000000)) as [delta_ms|]; [|reflexivity].
  cbn [bind]. rewrite advance_in_range by reflexivity. cbn [bind]. reflexivity.
Qed.

Lemma div_million (delta_ns : Int64.t) :
  0 <= delta_ns ->
  exists delta_ms : Int64.t,
    Int64.div delta_ns (Int64.repr 1000000) = Defined delta_ms
    /\ Int64.to_Z delta_ms = Z.quot delta_ns 1000000
    /\ 0 <= delta_ms.
Proof.
  intros Hpos. unfold Int64.div.
  change (Int64.to_Z (Int64.repr 1000000)) with 1000000. cbn [Z.eqb].
  pose proof (quot_bounds delta_ns 1000000 ltac:(lia)) as Hq.
  assert (Int64.in_range (Z.quot delta_ns 1000000) = true) as Hr by (ranges; lia).
  exists (Int64.repr (Z.quot delta_ns 1000000)).
  split; [apply Int64Facts.checked_repr, Hr|].
  cbn [Int64.repr Int64.to_Z]. rewrite (Int64Facts.wrap_small _ Hr). lia.
Qed.

(** On a steady platform, whenever the difference of the two readings
    [main] takes is representable, [main] runs to its end without undefined
    behaviour and returns 0; it has read the platform's clock twice; the
    elapsed time it prints is the difference of the two timestamps divided
    by 10^6 and rounded towards zero, and is never negative; and the lines
    about the [VirtualClock] are the same on every platform. *)
Theorem main_reports_elapsed (w : chrono.steady_clock) :
  chrono.steady w ->
  let t1 := chrono.to_nanoseconds (chrono.period_num w) (chrono.period_den w)
              (chrono.tick_at w (chrono.calls w)) in
  let t2 := chrono.to_nanoseconds (chrono.period_num w) (chrono.period_den w)
              (chrono.tick_at w (S (chrono.calls w))) in
  Int64.in_range (t2 - t1) = true ->
  exists (delta_ms : Int64.t) (w' : chrono.steady_clock),
    main_cpp.main w = Defined (0, main_cpp.transcript delta_ms, w')
    /\ Int64.to_Z delta_ms = Z.quot (t2 - t1) 1000000
    /\ 0 <= delta_ms
    /\ chrono.calls w' = S (S (chrono.calls w)).
Proof.
  intros Hw t1 t2 Hr.
  destruct (main_after_reads w Hw) as (x1 & x2 & w' & E & H1 & H2 & Hle & Hcalls).
  fold t1 in H1. fold t2 in H2. clearbody t1 t2.
  assert (Int64.sub x2 x1 = Defined (Int64.repr (t2 - t1))) as Esub.
  { unfold Int64.sub. rewrite H1, H2. apply Int64Facts.checked_repr, Hr. }
  destruct (div_million (Int64.repr (t2 - t1))) as (delta_ms & Ediv & Hms & Hpos).
  { cbn [Int64.repr Int64.to_Z]. rewrite (Int64Facts.wrap_small _ Hr). lia. }
  exists delta_ms, w'. rewrite E, Esub. cbn [bind]. rewrite Ediv. cbn [bind].
  repeat split; try assumption.
  rewrite Hms. cbn [Int64.repr Int64.to_Z]. now rewrite (Int64Facts.wrap_small _ Hr).
Qed.

Lemma main_reports_elapsed_witness :
  exists (delta_ms : Int64.t) (w' : chrono.steady_clock),
    main_cpp.main nanosecond_clock = Defined (0, main_cpp.transcript delta_ms, w')
    /\ Int64.to_Z delta_ms = 250.
Proof.
  destruct (main_reports_elapsed nanosecond_clock nanosecond_clock_steady)
    as (delta_ms & w' & E & Hms & _).
  - vm_compute. reflexivity.
  - exists delta_ms, w'. split; [exact E|].
    rewrite Hms. vm_compute. reflexivity.
Defined.

(** On a steady platform [main] has undefined behaviour exactly when the
    difference of its two readings overflows 64 bits; it never does when the
    first reading is not negative. *)
Theorem main_defined_iff (w : chrono.steady_clock) :
  chrono.steady w ->
  let t1 := chrono.to_nanoseconds (chrono.period_num w) (chrono.period_den w)
              (chrono.tick_at w (chrono.calls w)) in
  let t2 := chrono.to_nanoseconds (chrono.period_num w) (chrono.period_den w)
              (chrono.tick_at w (S (chrono.calls w))) in
  is_defined (main_cpp.main w) = Int64.in_range (t2 - t1)
  /\ (0 <= t1 -> is_defined (main_cpp.main w) = true).
Proof.
  intros Hw t1 t2.
  destruct (main_after_reads w Hw) as (x1 & x2 & w' & E & H1 & H2 & Hle & Hcalls).
  fold t1 in H1. fold t2 in H2. clearbody t1 t2.
  assert (is_defined (main_cpp.main w) = Int64.in_range (t2 - t1)) as Hiff.
  { rewrite E. unfold Int64.sub. rewrite H1, H2.
    destruct (Int64.in_range (t2 - t1)) eqn:Hr.
    - rewrite (Int64Facts.checked_repr _ Hr). cbn [bind].
      destruct (div_million (Int64.repr (t2 - t1))) as (delta_ms & -> & _).
      + cbn [Int64.repr Int64.to_Z]. rewrite (Int64Facts.wrap_small _ Hr). lia.
      + reflexivity.
    - rewrite (Int64Facts.checked_out _ Hr). reflexivity. }
  split; [exact Hiff|].
  intros Hpos. rewrite Hiff. ranges. lia.
Qed.

Lemma main_defined_iff_witness :
  is_defined (main_cpp.main wide_clock) = false.
Proof.
  destruct (main_defined_iff wide_clock wide_clock_steady) as [-> _].
  vm_compute. reflexivity.
Defined.
